(** * Lumina Health API: the nutrition estimate and the community board

    A shallow embedding of [src/main.py].  Python dictionaries are finite
    maps with string keys ([gmap string value]), so that equality of two
    documents is equality of their lookups, as [==] on [dict] is.  Python
    [str] values are byte strings in UTF-8; every key the program tests
    for is ASCII, so a substring test on code points and on bytes agree. *)

From stdpp Require Import gmap strings list fin_maps.
From Stdlib Require Import ZArith QArith Ascii.

Set Warnings "-register-all".
Local Open Scope Z_scope.

(** ** Python values that cross the HTTP and the store boundary *)

(** What [json.loads] produces, plus the store's native identity
    ([bson.ObjectId]).  JSON numbers are kept to the integers. *)
Inductive value : Type :=
| VNone
| VBool (b : bool)
| VInt (z : Z)
| VStr (s : string)
| VList (l : list value)
| VDict (d : gmap string value)
| VObjectId (o : N).

Abbreviation document := (gmap string value) (only parsing).

(** [==] on values, used by the store to match a filter. *)
Fixpoint value_eqb (v w : value) {struct v} : bool :=
  match v, w with
  | VNone, VNone => true
  | VBool a, VBool b => bool_decide (a = b)
  | VInt a, VInt b => bool_decide (a = b)
  | VStr a, VStr b => bool_decide (a = b)
  | VObjectId a, VObjectId b => bool_decide (a = b)
  | VList l, VList l' =>
      (fix go (l l' : list value) : bool :=
         match l, l' with
         | [], [] => true
         | x :: l, y :: l' => value_eqb x y && go l l'
         | _, _ => false
         end) l l'
  | VDict d, VDict d' =>
      bool_decide (size d = size d') &&
      map_fold (λ k x acc,
                acc && match d' !! k with
                       | Some y => value_eqb x y
                       | None => false
                       end) true d
  | _, _ => false
  end.

(** ** Strings *)

(** Python's [k in text] on strings: [k] occurs in [text] as a
    contiguous run. *)
Fixpoint contains (k text : string) : bool :=
  if String.prefix k text then true
  else match text with
       | EmptyString => false
       | String _ rest => contains k rest
       end.

(** An ASCII rendering of [str.lower], used to run the examples. *)
Definition lower_ascii_char (c : ascii) : ascii :=
  let n := nat_of_ascii c in
  if ((65 <=? n)%nat && (n <=? 90)%nat)%bool then ascii_of_nat (n + 32) else c.

Fixpoint lower_ascii (s : string) : string :=
  match s with
  | EmptyString => EmptyString
  | String c rest => String (lower_ascii_char c) (lower_ascii rest)
  end.

(** ** The nutrition estimate *)

Module Nutrition.

Record NutritionInput := { text : string }.

(** One element of [hits], the dict [{"item": k, "calories": v}]. *)
Record hit := Hit { item : string; calories : Z }.

(** The returned dict.  [confidence] is the literal [0.5] or [0.2]. *)
Record estimate := Estimate {
  estimated_calories : Z;
  items : list hit;
  confidence : Q
}.

(** [db_map.items()]: a dict literal iterates in the order it is written. *)
Definition db_map : list (string * Z) :=
  [ ("banana", 105); ("apple", 95); ("egg", 78); ("eggs", 156); ("bread", 80);
    ("rice", 200); ("salad", 120); ("chicken", 220); ("yogurt", 150);
    ("coffee", 5); ("latte", 190); ("orange", 62); ("oats", 150) ].

Section Estimate.

(** [str.lower], which follows the Unicode case mapping; the results
    below hold for whatever it computes. *)
Variable lower : string → string.

(** The body of the [for k, v in db_map.items()] loop on the pair
    [(total, hits)]. *)
Definition loop_body (text : string) (st : Z * list hit) (kv : string * Z)
  : Z * list hit :=
  let '(total, hits) := st in
  let '(k, v) := kv in
  if contains k text then (total + v, hits ++ [Hit k v]) else (total, hits).

Definition nutrition_estimate (inp : NutritionInput) : estimate :=
  let text := lower (text inp) in
  let '(total, hits) := fold_left (loop_body text) db_map (0, []) in
  let confidence := match hits with [] => 0.2%Q | _ => 0.5%Q end in
  Estimate total hits confidence.

End Estimate.

(** The sum of the calories of a list of hits. *)
Definition sum_calories (hs : list hit) : Z :=
  foldr (λ h acc, calories h + acc) 0 hs.

(** A table entry as the hit the loop appends for it. *)
Definition hit_of (kv : string * Z) : hit := Hit kv.1 kv.2.

(** The entries of the table whose keyword occurs in [text]. *)
Definition found (text : string) (table : list (string * Z)) : list hit :=
  hit_of <$> List.filter (λ kv, contains kv.1 text) table.

(** The hits for keywords other than ["egg"] and ["eggs"]. *)
Definition not_egg (h : hit) : bool :=
  negb (String.eqb (item h) "egg" || String.eqb (item h) "eggs").

End Nutrition.

(** ** The community board: request validation and the two handlers *)

Module Community.

(** A call into the store adapter either returns or raises; [Raised e]
    carries [str(e)] of the exception. *)
Inductive outcome (A : Type) : Type :=
| Returned (a : A)
| Raised (e : string).
Arguments Returned {A} a.
Arguments Raised {A} e.

(** One entry of the 422 body: the error type and the path of the field. *)
Inductive loc_item := Field (name : string) | Index (i : nat).
Record error_detail := ErrorDetail { type_ : string; loc : list loc_item }.

(** What the client receives. *)
Inductive response : Type :=
| JSONResponse (body : gmap string value)
| HTTPException (status_code : Z) (detail : string)
| RequestValidationError (errors : list error_detail).

(** [class CommunityPostIn(BaseModel)]: three required [str] fields and
    [tags: Optional[List[str]] = []]. *)
Record CommunityPostIn := {
  title : string;
  content : string;
  author : string;
  tags : option (list string)
}.

(** A required field annotated [str]: absent is an error, a JSON string
    is taken as it is (no length constraint is declared), anything else
    is a type error. *)
Definition validate_str (name : string) (body : gmap string value)
  : list error_detail + string :=
  match body !! name with
  | None => inl [ErrorDetail "missing" [Field "body"; Field name]]
  | Some (VStr s) => inr s
  | Some _ => inl [ErrorDetail "string_type" [Field "body"; Field name]]
  end.

(** The items of a [List[str]], from index [i] on: the errors and the
    strings. *)
Fixpoint validate_items (i : nat) (l : list value)
  : list error_detail * list string :=
  match l with
  | [] => ([], [])
  | v :: l' =>
      let '(errors, strs) := validate_items (S i) l' in
      match v with
      | VStr s => (errors, s :: strs)
      | _ => (ErrorDetail "string_type" [Field "body"; Field "tags"; Index i]
                :: errors, strs)
      end
  end.

(** [tags: Optional[List[str]] = []]: absent takes the default, [null]
    is accepted as [None], a list is checked item by item. *)
Definition validate_tags (body : gmap string value)
  : list error_detail + option (list string) :=
  match body !! "tags" with
  | None => inr (Some [])
  | Some VNone => inr None
  | Some (VList l) =>
      match validate_items 0 l with
      | ([], strs) => inr (Some strs)
      | (errors, _) => inl errors
      end
  | Some _ => inl [ErrorDetail "list_type" [Field "body"; Field "tags"]]
  end.

Definition errors_of {A : Type} (r : list error_detail + A) : list error_detail :=
  match r with inl errors => errors | inr _ => [] end.

(** Validation of a JSON object against [CommunityPostIn]: every field is
    checked and the errors are collected in declaration order; keys the
    model does not declare are ignored. *)
Definition validate (body : gmap string value) : list error_detail + CommunityPostIn :=
  match validate_str "title" body, validate_str "content" body,
        validate_str "author" body, validate_tags body with
  | inr t, inr c, inr a, inr g =>
      inr {| title := t; content := c; author := a; tags := g |}
  | rt, rc, ra, rg =>
      inl (errors_of rt ++ errors_of rc ++ errors_of ra ++ errors_of rg)
  end.

(** [post.model_dump()]: the declared fields and nothing else. *)
Definition model_dump (post : CommunityPostIn) : gmap string value :=
  {[ "title" := VStr (title post);
     "content" := VStr (content post);
     "author" := VStr (author post);
     "tags" := match tags post with
               | None => VNone
               | Some l => VList (VStr <$> l)
               end ]}.

(** A handler is the calls it makes into [database] and the response it
    ends with. *)
Inductive handler : Type :=
| Respond (r : response)
| Call_create_document (collection_name : string) (data : gmap string value)
    (k : outcome string → handler)
| Call_get_documents (collection_name : string) (filter_dict : gmap string value)
    (limit : Z) (k : outcome (list (gmap string value)) → handler).

Section Handlers.

(** Python's [str], applied by the program to the value under ["_id"]. *)
Variable py_str : value → string.

(** The body of [for p in posts]:
    [if "_id" in p: p["id"] = str(p.pop("_id"))]. *)
Definition convert_id (p : gmap string value) : gmap string value :=
  match p !! "_id" with
  | Some oid => <["id" := VStr (py_str oid)]> (delete "_id" p)
  | None => p
  end.

(** What [get_community_posts] does with the outcome of [get_documents]. *)
Definition get_community_posts_k (r : outcome (list (gmap string value))) : handler :=
  match r with
  | Returned posts =>
      Respond (JSONResponse {[ "posts" := VList (VDict <$> (convert_id <$> posts)) ]})
  | Raised e => Respond (HTTPException 500 e)
  end.

Definition get_community_posts (limit : Z) : handler :=
  Call_get_documents "communitypost" ∅ limit get_community_posts_k.

(** What [create_community_post] does with the outcome of
    [create_document]. *)
Definition create_community_post_k (r : outcome string) : handler :=
  match r with
  | Returned post_id =>
      Respond (JSONResponse {[ "id" := VStr post_id; "status" := VStr "created" ]})
  | Raised e => Respond (HTTPException 500 e)
  end.

Definition create_community_post (post : CommunityPostIn) : handler :=
  Call_create_document "communitypost" (model_dump post) create_community_post_k.

(** [GET /api/community/posts?limit=N], with [limit: int = 20]. *)
Definition GET_posts (limit : option Z) : handler :=
  get_community_posts (default 20 limit).

(** [POST /api/community/posts]: the body is validated before the
    handler body runs. *)
Definition POST_posts (body : gmap string value) : handler :=
  match validate body with
  | inl errors => Respond (RequestValidationError errors)
  | inr post => create_community_post post
  end.

End Handlers.

(** A post as a caller must see it: an [id] that is a string and no
    field under the store's name for the identity. *)
Definition exposes_id (p : gmap string value) : Prop :=
  (∃ i, p !! "id" = Some (VStr i)) ∧ p !! "_id" = None.

(** The 200 body of a successful creation. *)
Definition created (post_id : string) : response :=
  JSONResponse {[ "id" := VStr post_id; "status" := VStr "created" ]}.

End Community.

(** ** The document store adapter *)

Module Database.
Import Community.

(** Modelled from the spec: the module [database] ([create_document],
    [get_documents] and the store behind them) is imported by
    [src/main.py] but is not among the sources.  A collection keeps its
    documents in insertion order, each with the identifier the store
    assigned; [outage] is [Some e] while the store is unreachable and
    every operation then fails with the message [e]. *)
Record store := Store {
  collections : gmap string (list (N * gmap string value));
  next_oid : N;
  outage : option string
}.

(** Modelled from the spec: a document as the store returns it includes
    its native identity field. *)
Definition with_id (d : N * gmap string value) : gmap string value :=
  <["_id" := VObjectId d.1]> d.2.

(** Modelled from the spec: a filter maps fields to expected values, and
    the empty mapping matches every document. *)
Definition matches (filter_dict doc : gmap string value) : bool :=
  map_fold (λ k v acc,
            acc && match doc !! k with
                   | Some w => value_eqb v w
                   | None => false
                   end) true filter_dict.

Definition documents (collection_name : string) (s : store)
  : list (N * gmap string value) :=
  default [] (collections s !! collection_name).

Section Adapter.

Variable py_str : value → string.

(** Modelled from the spec: [create_document(collection_name, document)]
    inserts the document as provided, the store assigns the identifier,
    and the identifier is returned in its string form; an unreachable
    store raises and inserts nothing. *)
Definition create_document (collection_name : string) (data : gmap string value)
    (s : store) : outcome string * store :=
  match outage s with
  | Some e => (Raised e, s)
  | None =>
      let oid := next_oid s in
      (Returned (py_str (VObjectId oid)),
       {| collections :=
            <[collection_name := documents collection_name s ++ [(oid, data)]]>
              (collections s);
          next_oid := N.succ oid;
          outage := None |})
  end.

(** Modelled from the spec: [get_documents(collection_name, filter, limit)]
    returns up to [limit] matching documents in the store's order, each
    with its native identity field; [limit] is a non-negative count. *)
Definition get_documents (collection_name : string)
    (filter_dict : gmap string value) (limit : Z) (s : store)
  : outcome (list (gmap string value)) :=
  match outage s with
  | Some e => Raised e
  | None =>
      Returned (take (Z.to_nat limit)
                  (List.filter (matches filter_dict)
                     (with_id <$> documents collection_name s)))
  end.

End Adapter.

(** A reachable store with no document in it. *)
Definition empty_store : store :=
  {| collections := ∅; next_oid := 0; outage := None |}.

(** Connectivity lost and restored; the documents stay. *)
Definition disconnect (e : string) (s : store) : store :=
  {| collections := collections s; next_oid := next_oid s; outage := Some e |}.

Definition reconnect (s : store) : store :=
  {| collections := collections s; next_oid := next_oid s; outage := None |}.

End Database.

(** ** Running a handler against the store *)

Module Service.
Import Community.

(** The adapter calls a handler made, in order. *)
Inductive call : Type :=
| Created (collection_name : string) (data : gmap string value)
| Listed (collection_name : string) (filter_dict : gmap string value) (limit : Z).

Section Run.

Variable py_str : value → string.

Fixpoint run (h : handler) (s : Database.store)
  : response * Database.store * list call :=
  match h with
  | Respond r => (r, s, [])
  | Call_create_document c d k =>
      let '(o, s1) := Database.create_document py_str c d s in
      let '(r, s2, t) := run (k o) s1 in
      (r, s2, Created c d :: t)
  | Call_get_documents c f n k =>
      let '(r, s1, t) := run (k (Database.get_documents c f n s)) s in
      (r, s1, Listed c f n :: t)
  end.

Definition reply (h : handler) (s : Database.store) : response := (run h s).1.1.
Definition after (h : handler) (s : Database.store) : Database.store := (run h s).1.2.
Definition calls (h : handler) (s : Database.store) : list call := (run h s).2.

End Run.

End Service.

(** ** Sample data for running the scenarios *)

Module Sample.

Definition hex_digit (n : N) : ascii :=
  match n with
  | 0 => "0" | 1 => "1" | 2 => "2" | 3 => "3" | 4 => "4" | 5 => "5"
  | 6 => "6" | 7 => "7" | 8 => "8" | 9 => "9" | 10 => "a" | 11 => "b"
  | 12 => "c" | 13 => "d" | 14 => "e" | _ => "f"
  end%N%char.

Fixpoint hex_digits (width : nat) (n : N) (acc : string) : string :=
  match width with
  | O => acc
  | S w => hex_digits w (n / 16)%N (String (hex_digit (n mod 16)%N) acc)
  end.

(** [str] on the values that occur under ["_id"] in the scenarios: an
    [ObjectId] prints as 24 hexadecimal digits, a string as itself. *)
Definition str_of_id (v : value) : string :=
  match v with
  | VObjectId o => hex_digits 24 o EmptyString
  | VStr s => s
  | _ => "None"
  end.

Definition hello : gmap string value :=
  {[ "title" := VStr "Hello"; "content" := VStr "First post";
     "author" := VStr "alice" ]}.

(** The same request with an empty title, with [tags] set to [null],
    and with no author. *)
Definition empty_title : gmap string value := <["title" := VStr EmptyString]> hello.
Definition null_tags : gmap string value := <["tags" := VNone]> hello.
Definition no_author : gmap string value := delete "author" hello.

End Sample.

(** ** The mood estimate *)

Module Mood.

(** [class ImageInput(BaseModel)].  The handler reads [ord(c)] of every
    character, so the URL is kept as the sequence of its code points. *)
Record ImageInput := { image_url : list N }.

Definition ord (c : N) : Z := Z.of_N c.

(** The built-in [sum], from 0. *)
Definition sum (l : list Z) : Z := fold_left Z.add l 0.

(** [l[i]] on a list: a negative index counts from the end, an index out
    of range raises [IndexError] ([None]). *)
Definition getitem {A : Type} (l : list A) (i : Z) : option A :=
  if 0 <=? i then l !! Z.to_nat i
  else if 0 <=? Z.of_nat (length l) + i then l !! Z.to_nat (Z.of_nat (length l) + i)
  else None.

Definition moods : list string :=
  ["calm"; "focused"; "anxious"; "uplifted"; "neutral"].

(** [score = sum(ord(c) for c in payload.image_url) % 100]. *)
Definition score (payload : ImageInput) : Z :=
  sum (ord <$> image_url payload) mod 100.

(** [mood = moods[score % len(moods)]].  The confidence of the response,
    a float rounded to two places, is not part of this development. *)
Definition mood (payload : ImageInput) : option string :=
  getitem moods (score payload mod Z.of_nat (length moods)).

(** The code points of an ASCII string. *)
Fixpoint codepoints (s : string) : list N :=
  match s with
  | EmptyString => []
  | String c rest => N_of_ascii c :: codepoints rest
  end.

End Mood.

(** ** The canned chat replies *)

Module Chat.

(** [class ChatInput(BaseModel)]. *)
Record ChatInput := { message : string; context : option (list string) }.

Definition breathing : string :=
  "I'm here with you. Let's try box breathing: inhale 4, hold 4, exhale 4, hold 4, for 4 rounds.".
Definition bedtime : string :=
  "Aim for a consistent bedtime. Try reducing screens 60 minutes before sleep and a 10-minute wind-down.".
Definition plate : string :=
  "A simple plate: half veggies, quarter lean protein, quarter whole grains. Hydration helps too.".
Definition tell_me : string :=
  "Tell me how you're feeling today, and I can suggest a quick exercise or resource.".

Section Reply.

Variable lower : string → string.

(** The [if]/[elif] chain on [text = input.message.lower()]. *)
Definition reply_of (input : ChatInput) : string :=
  let text := lower (message input) in
  if contains "stress" text || contains "anxious" text then breathing
  else if contains "sleep" text then bedtime
  else if contains "diet" text || contains "food" text then plate
  else tell_me.

Definition health_chat (input : ChatInput) : gmap string value :=
  {[ "reply" := VStr (reply_of input) ]}.

End Reply.

End Chat.

(** ** The database self-test *)

Module Health.
Import Community.

(** The module-level [db] of [database], which is imported but is not
    among the sources, as far as [test_database] looks at it: whether it
    has a [name], and what [list_collection_names()] does. *)
Record database := {
  name : option string;
  list_collection_names : outcome (list string)
}.

(** The truth value of [os.getenv(...)]: set and not empty. *)
Definition truthy (v : option string) : bool :=
  match v with
  | Some (String _ _) => true
  | _ => false
  end.

Section TestDatabase.

(** [s[:n]], the first [n] characters of a [str]. *)
Variable first_chars : nat → string → string.

(** [test_database], on [db] and the value of [DATABASE_URL].  Reading
    [db.name] and the environment does not raise, so the outer [except]
    is never entered. *)
Definition test_database (db : option database) (DATABASE_URL : option string)
  : gmap string value :=
  let response : gmap string value :=
    {[ "backend" := VStr "✅ Running";
       "database" := VStr "❌ Not Available";
       "database_url" := VStr "❌ Not Set";
       "database_name" := VStr "❌ Not Set";
       "connection_status" := VStr "Not Connected";
       "collections" := VList [] ]} in
  match db with
  | Some db =>
      let response := <["database" := VStr "✅ Available"]> response in
      let response :=
        <["database_url" := VStr (if truthy DATABASE_URL then "✅ Set" else "❌ Not Set")]>
          response in
      let response :=
        <["database_name" := VStr (match name db with
                                   | Some n => n
                                   | None => "✅ Connected"
                                   end)]> response in
      let response := <["connection_status" := VStr "Connected"]> response in
      match list_collection_names db with
      | Returned names =>
          let response := <["collections" := VList (VStr <$> take 10 names)]> response in
          <["database" := VStr "✅ Connected & Working"]> response
      | Raised e =>
          <["database" := VStr ("⚠️ Connected but Error: " +:+ first_chars 80 e)]> response
      end
  | None => <["database" := VStr "⚠️ Available but not initialized"]> response
  end.

End TestDatabase.

(** The first [n] bytes, which are the first [n] characters of an ASCII
    string; used to run the examples. *)
Definition prefix_ascii (n : nat) (s : string) : string := String.substring 0 n s.

End Health.

Example nutrition_two_eggs :
  Nutrition.nutrition_estimate lower_ascii
    {| Nutrition.text := "2 Eggs and a Banana" |}
  = Nutrition.Estimate 339
      [Nutrition.Hit "banana" 105; Nutrition.Hit "egg" 78; Nutrition.Hit "eggs" 156]
      0.5%Q.
Proof. reflexivity. Qed.

Example hello_created :
  Service.run Sample.str_of_id (Community.POST_posts Sample.hello) Database.empty_store
  = (Community.JSONResponse {[ "id" := VStr "000000000000000000000000"; "status" := VStr "created" ]},
     Database.Store {[ "communitypost" := [(0%N, <["tags" := VList []]> Sample.hello)] ]} 1 None,
     [Service.Created "communitypost" (<["tags" := VList []]> Sample.hello)]).
Proof. vm_compute. reflexivity. Qed.

Example hello_listed :
  Service.reply Sample.str_of_id (Community.get_community_posts Sample.str_of_id 1)
    (Service.after Sample.str_of_id (Community.POST_posts Sample.hello) Database.empty_store)
  = Community.JSONResponse
      {[ "posts" := VList [VDict (<["id" := VStr "000000000000000000000000"]>
                                    (<["tags" := VList []]> Sample.hello))] ]}.
Proof. vm_compute. reflexivity. Qed.

Example mood_of_png :
  Mood.score {| Mood.image_url := Mood.codepoints "https://example.com/a.png" |} = 43
  ∧ Mood.mood {| Mood.image_url := Mood.codepoints "https://example.com/a.png" |}
    = Some "uplifted".
Proof. by vm_compute. Qed.

Example chat_stress_before_sleep :
  Chat.health_chat lower_ascii
    {| Chat.message := "Stress keeps me from SLEEP"; Chat.context := None |}
  = {[ "reply" := VStr Chat.breathing ]}.
Proof. reflexivity. Qed.

Example test_database_listing_raises :
  Health.test_database Health.prefix_ascii
    (Some {| Health.name := Some "lumina";
             Health.list_collection_names := Community.Raised "timed out" |})
    (Some "mongodb://localhost")
  = {[ "backend" := VStr "✅ Running";
       "database" := VStr "⚠️ Connected but Error: timed out";
       "database_url" := VStr "✅ Set";
       "database_name" := VStr "lumina";
       "connection_status" := VStr "Connected";
       "collections" := VList [] ]}.
Proof. reflexivity. Qed.

(** * Results *)

(** ** Substring tests *)

Lemma prefix_app_l (k k' text : string) :
  String.prefix (k +:+ k') text = true → String.prefix k text = true.
Proof.
  revert text. induction k as [|c k IH]; intros text H.
  - by destruct text.
  - destruct text as [|c' text]; simpl in *; [done|].
    destruct (Ascii.ascii_dec c c'); [by apply IH | done].
Qed.

Lemma contains_unfold (k text : string) :
  contains k text
  = if String.prefix k text then true
    else match text with
         | EmptyString => false
         | String _ rest => contains k rest
         end.
Proof. by destruct text. Qed.

Lemma contains_app_l (k k' text : string) :
  contains (k +:+ k') text = true → contains k text = true.
Proof.
  induction text as [|c text IH].
  - rewrite !(contains_unfold _ EmptyString).
    destruct (String.prefix (k +:+ k') EmptyString) eqn:E; [|done].
    by rewrite (prefix_app_l _ _ _ E).
  - rewrite !(contains_unfold _ (String _ _)).
    destruct (String.prefix (k +:+ k') (String c text)) eqn:E.
    + by rewrite (prefix_app_l _ _ _ E).
    + intros H. rewrite (IH H). by destruct (String.prefix k (String c text)).
Qed.

Lemma prefix_spec (k text : string) :
  String.prefix k text = true ↔ ∃ b, text = k +:+ b.
Proof.
  revert text. induction k as [|c k IH]; intros text.
  - split; [by exists text | by destruct text].
  - destruct text as [|c' text]; simpl.
    + split; [done | by intros [b Hb]].
    + destruct (Ascii.ascii_dec c c') as [->|Hne].
      * rewrite IH. split; intros [b Hb]; exists b.
        -- simpl. by rewrite Hb.
        -- simpl in Hb. by injection Hb.
      * split; [done|]. intros [b Hb]. simpl in Hb. injection Hb as Hc _. congruence.
Qed.

(** [contains] is the substring test: [k] occurs in [text] exactly when
    [text] is some [a], then [k], then some [b]. *)
Lemma contains_spec (k text : string) :
  contains k text = true ↔ ∃ a b, text = a +:+ k +:+ b.
Proof.
  induction text as [|c text IH]; rewrite contains_unfold.
  - destruct (String.prefix k EmptyString) eqn:E.
    + split; [|done]. intros _. apply prefix_spec in E as [b Hb].
      by exists EmptyString, b.
    + split; [done|]. intros (a & b & Hab). destruct a; [|done].
      assert (String.prefix k EmptyString = true) by (apply prefix_spec; eauto).
      congruence.
  - destruct (String.prefix k (String c text)) eqn:E.
    + split; [|done]. intros _. apply prefix_spec in E as [b Hb].
      by exists EmptyString, b.
    + rewrite IH. split.
      * intros (a & b & ->). by exists (String c a), b.
      * intros (a & b & Hab). destruct a as [|c' a].
        -- assert (String.prefix k (String c text) = true) by (apply prefix_spec; eauto).
           congruence.
        -- injection Hab as _ Ht. eauto.
Qed.

(** ** The nutrition estimate *)

Section NutritionResults.
Import Nutrition.

Variable lower : string → string.

Lemma sum_calories_app (hs hs' : list hit) :
  sum_calories (hs ++ hs') = sum_calories hs + sum_calories hs'.
Proof. induction hs as [|h hs IH]; simpl; [done | rewrite IH; lia]. Qed.

Lemma found_app (text : string) (l l' : list (string * Z)) :
  found text (l ++ l') = found text l ++ found text l'.
Proof. unfold found. by rewrite List.filter_app, fmap_app. Qed.

Lemma found_cons (text k : string) (v : Z) (table : list (string * Z)) :
  found text ((k, v) :: table)
  = if contains k text then Hit k v :: found text table else found text table.
Proof. unfold found. simpl. by destruct (contains k text). Qed.

(** The loop visits each entry of the table once: it adds the entries
    whose keyword occurs in the text, in table order. *)
Lemma loop_found (text : string) (table : list (string * Z)) (total : Z) (hits : list hit) :
  fold_left (loop_body text) table (total, hits)
  = (total + sum_calories (found text table), hits ++ found text table).
Proof.
  revert total hits. induction table as [|[k v] table IH]; intros total hits.
  - simpl. by rewrite Z.add_0_r, app_nil_r.
  - rewrite found_cons. cbn [fold_left loop_body].
    destruct (contains k text); rewrite IH; [|done].
    rewrite <- app_assoc. unfold sum_calories. cbn [foldr calories app]. f_equal. lia.
Qed.

Lemma nutrition_estimate_found (inp : NutritionInput) :
  items (nutrition_estimate lower inp) = found (lower (text inp)) db_map
  ∧ estimated_calories (nutrition_estimate lower inp)
    = sum_calories (found (lower (text inp)) db_map).
Proof.
  unfold nutrition_estimate. rewrite loop_found. simpl. split; [done | lia].
Qed.

Lemma found_keys_NoDup (text : string) (table : list (string * Z)) :
  NoDup (table.*1) → NoDup (item <$> found text table).
Proof.
  induction table as [|[k v] table IH]; intros H.
  - constructor.
  - apply NoDup_cons in H as [Hk H]. rewrite found_cons.
    destruct (contains k text); [|by apply IH].
    rewrite fmap_cons. apply NoDup_cons. split; [|by apply IH].
    intros Hin. apply Hk. cbn [item] in Hin.
    apply list_elem_of_fmap in Hin as [h [-> Hh]].
    apply list_elem_of_fmap in Hh as [[k' v'] [-> Hkv]].
    apply list_elem_of_In, List.filter_In in Hkv as [Hkv _].
    apply list_elem_of_fmap. exists (k', v'). split; [done|].
    by apply list_elem_of_In.
Qed.

Lemma found_not_egg (text : string) (table : list (string * Z)) :
  Forall (λ kv, not_egg (hit_of kv) = true) table →
  List.filter not_egg (found text table) = found text table.
Proof.
  induction 1 as [|[k v] table Hkv _ IH]; [done|].
  rewrite found_cons. destruct (contains k text); [|done].
  cbn [List.filter]. change (Hit k v) with (hit_of (k, v)).
  rewrite Hkv. by rewrite IH.
Qed.

Lemma db_map_keys_NoDup : NoDup (db_map.*1).
Proof. apply (bool_decide_unpack _). by vm_compute. Qed.

(** C10: when the lowercased text contains "eggs", the estimate holds
    both the "egg" entry (78) and the "eggs" entry (156), the total is 234
    calories for the two plus the calories of the other hits, and every
    keyword of the table is counted at most once: the items are the table
    entries whose keyword occurs in the text, each once, and the total is
    their sum. *)
Theorem nutrition_eggs_counts_egg_and_eggs (inp : NutritionInput) :
  contains "eggs" (lower (text inp)) = true →
  let r := nutrition_estimate lower inp in
  Hit "egg" 78 ∈ items r ∧ Hit "eggs" 156 ∈ items r
  ∧ estimated_calories r = 234 + sum_calories (List.filter not_egg (items r))
  ∧ items r = found (lower (text inp)) db_map
  ∧ estimated_calories r = sum_calories (items r)
  ∧ NoDup (item <$> items r).
Proof.
  intros Heggs r.
  assert (Hegg : contains "egg" (lower (text inp)) = true)
    by exact (contains_app_l "egg" "s" _ Heggs).
  destruct (nutrition_estimate_found inp) as [Hitems Htotal].
  fold r in Hitems, Htotal.
  set (txt := lower (text inp)) in *.
  assert (Hsplit : found txt db_map
    = found txt [("banana", 105); ("apple", 95)]
      ++ [Hit "egg" 78; Hit "eggs" 156]
      ++ found txt [("bread", 80); ("rice", 200); ("salad", 120); ("chicken", 220);
                    ("yogurt", 150); ("coffee", 5); ("latte", 190); ("orange", 62);
                    ("oats", 150)]).
  { change db_map with
      ([("banana", 105); ("apple", 95)] ++ [("egg", 78); ("eggs", 156)]
       ++ [("bread", 80); ("rice", 200); ("salad", 120); ("chicken", 220);
           ("yogurt", 150); ("coffee", 5); ("latte", 190); ("orange", 62);
           ("oats", 150)]).
    rewrite !found_app. do 2 f_equal.
    unfold found. simpl. by rewrite Hegg, Heggs. }
  repeat split.
  - rewrite Hitems, Hsplit. set_solver.
  - rewrite Hitems, Hsplit. set_solver.
  - rewrite Htotal, Hitems, Hsplit.
    rewrite !List.filter_app, !sum_calories_app.
    rewrite !found_not_egg by (repeat constructor).
    simpl. lia.
  - done.
  - by rewrite Htotal, Hitems.
  - rewrite Hitems. apply found_keys_NoDup, db_map_keys_NoDup.
Qed.

End NutritionResults.

(** The estimate for "2 Eggs and a Banana", an input of C10. *)
Lemma nutrition_eggs_counts_egg_and_eggs_witness :
  contains "eggs" (lower_ascii "2 Eggs and a Banana") = true
  ∧ Nutrition.estimated_calories
      (Nutrition.nutrition_estimate lower_ascii {| Nutrition.text := "2 Eggs and a Banana" |})
    = 234 + Nutrition.sum_calories [Nutrition.Hit "banana" 105].
Proof.
  split; [reflexivity|].
  exact (proj1 (proj2 (proj2
    (nutrition_eggs_counts_egg_and_eggs lower_ascii
       {| Nutrition.text := "2 Eggs and a Banana" |} eq_refl)))).
Defined.

(** ** Validation of the request body *)

Section ValidationResults.
Import Community.

Lemma validate_str_inr (name : string) (body : gmap string value) (x : string) :
  validate_str name body = inr x ↔ body !! name = Some (VStr x).
Proof.
  unfold validate_str. split.
  - destruct (body !! name) as [[]|]; intros H; by simplify_eq.
  - by intros ->.
Qed.

Lemma validate_str_inl (name : string) (body : gmap string value) :
  (∀ x, body !! name ≠ Some (VStr x)) →
  ∃ e, validate_str name body = inl [e].
Proof.
  unfold validate_str. intros H.
  destruct (body !! name) as [[]|]; eauto. by destruct (H s).
Qed.

(** A body is accepted exactly when the three required fields hold
    strings and [tags] is acceptable. *)
Lemma validate_inr (body : gmap string value) (post : CommunityPostIn) :
  validate body = inr post ↔
  body !! "title" = Some (VStr (title post))
  ∧ body !! "content" = Some (VStr (content post))
  ∧ body !! "author" = Some (VStr (author post))
  ∧ validate_tags body = inr (tags post).
Proof.
  rewrite <- !validate_str_inr. unfold validate. split.
  - destruct (validate_str "title" body), (validate_str "content" body),
      (validate_str "author" body), (validate_tags body); intros H; by simplify_eq.
  - intros (-> & -> & -> & ->). by destruct post.
Qed.

(** A body is rejected, with at least one error reported, as soon as one
    required field does not hold a string. *)
Lemma validate_inl (body : gmap string value) (name : string) :
  name ∈ ["title"; "content"; "author"] →
  (∀ x, body !! name ≠ Some (VStr x)) →
  ∃ errors, errors ≠ [] ∧ validate body = inl errors.
Proof.
  intros Hname Hbad. destruct (validate_str_inl name body Hbad) as [e He].
  exists (errors_of (validate_str "title" body) ++ errors_of (validate_str "content" body)
          ++ errors_of (validate_str "author" body) ++ errors_of (validate_tags body)).
  split.
  - intros Hnil. apply (f_equal length) in Hnil. rewrite !length_app in Hnil.
    repeat (apply elem_of_cons in Hname as [->|Hname]);
      [| | |by apply elem_of_nil in Hname];
      rewrite He in Hnil; simpl in Hnil; lia.
  - unfold validate.
    repeat (apply elem_of_cons in Hname as [->|Hname]);
      [| | |by apply elem_of_nil in Hname];
      rewrite He;
      by destruct (validate_str "title" body), (validate_str "content" body),
        (validate_str "author" body), (validate_tags body).
Qed.

Lemma model_dump_tags (post : CommunityPostIn) :
  model_dump post !! "tags"
  = Some (match tags post with None => VNone | Some l => VList (VStr <$> l) end).
Proof. done. Qed.

Lemma model_dump_no_id (post : CommunityPostIn) : model_dump post !! "_id" = None.
Proof. done. Qed.

Lemma model_dump_no_likes (post : CommunityPostIn) : model_dump post !! "likes" = None.
Proof. done. Qed.

End ValidationResults.

(** ** The handlers against the store *)

Section CommunityResults.
Import Community Database Service.

Variable py_str : value → string.

Lemma matches_empty (doc : gmap string value) : matches ∅ doc = true.
Proof. unfold matches. by rewrite map_fold_empty. Qed.

Lemma filter_matches_empty (docs : list (gmap string value)) :
  List.filter (matches ∅) docs = docs.
Proof.
  induction docs as [|d docs IH]; [done|].
  simpl. by rewrite matches_empty, IH.
Qed.

Lemma with_id_lookup (d : N * gmap string value) :
  with_id d !! "_id" = Some (VObjectId d.1).
Proof. unfold with_id. by rewrite lookup_insert_eq. Qed.

(** The loop body never leaves the native field behind. *)
Lemma convert_id_no_native (p : gmap string value) :
  convert_id py_str p !! "_id" = None.
Proof.
  unfold convert_id. destruct (p !! "_id") eqn:E; [|done].
  rewrite lookup_insert_ne by done. by rewrite lookup_delete_eq.
Qed.

Lemma convert_id_exposes (p : gmap string value) :
  is_Some (p !! "_id") → exposes_id (convert_id py_str p).
Proof.
  intros [oid E]. split; [|apply convert_id_no_native].
  unfold convert_id. rewrite E. exists (py_str oid). by rewrite lookup_insert_eq.
Qed.

(** A stored document comes back with its identifier as a string under
    ["id"] and is otherwise as it was inserted. *)
Lemma convert_id_with_id (oid : N) (data : gmap string value) :
  data !! "_id" = None →
  convert_id py_str (with_id (oid, data)) = <["id" := VStr (py_str (VObjectId oid))]> data.
Proof.
  intros Hno. unfold convert_id. rewrite with_id_lookup. unfold with_id. simpl.
  rewrite delete_insert_eq. by rewrite delete_id.
Qed.

(** [create_community_post] against a reachable store. *)
Lemma run_create (post : CommunityPostIn) (s : store) :
  outage s = None →
  run py_str (create_community_post post) s
  = (created (py_str (VObjectId (next_oid s))),
     {| collections :=
          <["communitypost" := documents "communitypost" s ++ [(next_oid s, model_dump post)]]>
            (collections s);
        next_oid := N.succ (next_oid s);
        outage := None |},
     [Created "communitypost" (model_dump post)]).
Proof.
  intros Hup. unfold create_community_post. cbn [run].
  unfold create_document. by rewrite Hup.
Qed.

(** [get_community_posts] against a reachable store. *)
Lemma run_list (limit : Z) (s : store) :
  outage s = None →
  run py_str (get_community_posts py_str limit) s
  = (JSONResponse
       {[ "posts" := VList (VDict <$> (convert_id py_str <$>
                       take (Z.to_nat limit) (with_id <$> documents "communitypost" s))) ]},
     s, [Listed "communitypost" ∅ limit]).
Proof.
  intros Hup. unfold get_community_posts. cbn [run].
  unfold get_documents. rewrite Hup. by rewrite filter_matches_empty.
Qed.

(** Either handler against an unreachable store. *)
Lemma run_create_outage (post : CommunityPostIn) (s : store) (e : string) :
  outage s = Some e →
  run py_str (create_community_post post) s
  = (HTTPException 500 e, s, [Created "communitypost" (model_dump post)]).
Proof.
  intros Hdown. unfold create_community_post. cbn [run].
  unfold create_document. by rewrite Hdown.
Qed.

Lemma run_list_outage (limit : Z) (s : store) (e : string) :
  outage s = Some e →
  run py_str (get_community_posts py_str limit) s
  = (HTTPException 500 e, s, [Listed "communitypost" ∅ limit]).
Proof.
  intros Hdown. unfold get_community_posts. cbn [run].
  unfold get_documents. by rewrite Hdown.
Qed.

Lemma documents_after_create (post : CommunityPostIn) (s : store) :
  outage s = None →
  documents "communitypost" (after py_str (create_community_post post) s)
  = documents "communitypost" s ++ [(next_oid s, model_dump post)].
Proof.
  intros Hup. unfold after. rewrite run_create by done.
  unfold documents at 1. simpl. by rewrite lookup_insert_eq.
Qed.

Lemma outage_after_create (post : CommunityPostIn) (s : store) :
  outage s = None → outage (after py_str (create_community_post post) s) = None.
Proof. intros Hup. unfold after. by rewrite run_create. Qed.

Lemma run_POST_valid (body : gmap string value) (post : CommunityPostIn) (s : store) :
  validate body = inr post →
  run py_str (POST_posts body) s = run py_str (create_community_post post) s.
Proof. intros H. unfold POST_posts. by rewrite H. Qed.

Lemma run_POST_invalid (body : gmap string value) (errors : list error_detail) (s : store) :
  validate body = inl errors →
  run py_str (POST_posts body) s = (RequestValidationError errors, s, []).
Proof. intros H. unfold POST_posts. by rewrite H. Qed.

(** C7: a body without [title], [content] or [author] is answered with a
    validation error; the handler makes no call into the store, so the
    store is as it was. *)
Theorem create_missing_field_rejected (body : gmap string value) :
  body !! "title" = None ∨ body !! "content" = None ∨ body !! "author" = None →
  ∃ errors, errors ≠ []
    ∧ POST_posts body = Respond (RequestValidationError errors)
    ∧ ∀ s, run py_str (POST_posts body) s = (RequestValidationError errors, s, []).
Proof.
  intros H.
  assert (∃ name, name ∈ ["title"; "content"; "author"] ∧ body !! name = None)
    as (name & Hname & Hnone).
  { destruct H as [H|[H|H]]; eexists; (split; [|exact H]);
      rewrite !elem_of_cons; tauto. }
  destruct (validate_inl body name Hname) as (errors & Hne & Hv).
  { intros x. by rewrite Hnone. }
  exists errors. split; [done|]. split.
  - unfold POST_posts. by rewrite Hv.
  - intros s. by apply run_POST_invalid.
Qed.

(** C6: a body with text in the three required fields and no [tags] is
    accepted, the document handed to [create_document] has [tags] equal
    to the empty list, and against a reachable store the request is
    answered with the new id and the document is stored. *)
Theorem create_tags_omitted (body : gmap string value) (t c a : string) :
  body !! "title" = Some (VStr t) →
  body !! "content" = Some (VStr c) →
  body !! "author" = Some (VStr a) →
  body !! "tags" = None →
  ∃ data,
    POST_posts body = Call_create_document "communitypost" data create_community_post_k
    ∧ data !! "tags" = Some (VList [])
    ∧ ∀ s, outage s = None →
        reply py_str (POST_posts body) s = created (py_str (VObjectId (next_oid s)))
        ∧ calls py_str (POST_posts body) s = [Created "communitypost" data]
        ∧ documents "communitypost" (after py_str (POST_posts body) s)
          = documents "communitypost" s ++ [(next_oid s, data)].
Proof.
  intros Ht Hc Ha Hg.
  set (post := {| title := t; content := c; author := a; tags := Some [] |}).
  assert (Hv : validate body = inr post).
  { apply validate_inr. repeat split; try done. unfold validate_tags. by rewrite Hg. }
  exists (model_dump post). split; [|split].
  - unfold POST_posts. by rewrite Hv.
  - done.
  - intros s Hup. unfold reply, calls, after.
    rewrite (run_POST_valid _ _ _ Hv).
    split; [|split]; [by rewrite run_create..|].
    by apply documents_after_create.
Qed.

(** C9: a body with text in the three required fields and [tags] set to
    [null] is accepted, and the document handed to [create_document] has
    [tags] equal to [None], not a list. *)
Theorem create_tags_null (body : gmap string value) (t c a : string) :
  body !! "title" = Some (VStr t) →
  body !! "content" = Some (VStr c) →
  body !! "author" = Some (VStr a) →
  body !! "tags" = Some VNone →
  ∃ data,
    POST_posts body = Call_create_document "communitypost" data create_community_post_k
    ∧ data !! "tags" = Some VNone
    ∧ ∀ s, outage s = None →
        reply py_str (POST_posts body) s = created (py_str (VObjectId (next_oid s)))
        ∧ calls py_str (POST_posts body) s = [Created "communitypost" data]
        ∧ documents "communitypost" (after py_str (POST_posts body) s)
          = documents "communitypost" s ++ [(next_oid s, data)].
Proof.
  intros Ht Hc Ha Hg.
  set (post := {| title := t; content := c; author := a; tags := None |}).
  assert (Hv : validate body = inr post).
  { apply validate_inr. repeat split; try done. unfold validate_tags. by rewrite Hg. }
  exists (model_dump post). split; [|split].
  - unfold POST_posts. by rewrite Hv.
  - done.
  - intros s Hup. unfold reply, calls, after.
    rewrite (run_POST_valid _ _ _ Hv).
    split; [|split]; [by rewrite run_create..|].
    by apply documents_after_create.
Qed.

(** C5, as the code has it: [title] and [content] must be text, and the
    empty text is text.  A body whose [title] or [content] is absent or
    not a string is rejected and nothing is stored; a body whose [title],
    [content] and [author] are strings, empty or not, and whose [tags]
    are acceptable is accepted and stored as it is. *)
Theorem create_requires_text_not_nonempty (body : gmap string value) :
  (∀ name, name ∈ ["title"; "content"] → (∀ x, body !! name ≠ Some (VStr x)) →
     ∃ errors, errors ≠ []
       ∧ ∀ s, run py_str (POST_posts body) s = (RequestValidationError errors, s, []))
  ∧ (∀ t c a g,
       body !! "title" = Some (VStr t) →
       body !! "content" = Some (VStr c) →
       body !! "author" = Some (VStr a) →
       validate_tags body = inr g →
       let post := {| title := t; content := c; author := a; tags := g |} in
       validate body = inr post
       ∧ ∀ s, outage s = None →
           reply py_str (POST_posts body) s = created (py_str (VObjectId (next_oid s)))
           ∧ documents "communitypost" (after py_str (POST_posts body) s)
             = documents "communitypost" s ++ [(next_oid s, model_dump post)]).
Proof.
  split.
  - intros name Hname Hbad.
    destruct (validate_inl body name) as (errors & Hne & Hv); [|done|].
    { rewrite !elem_of_cons in Hname. rewrite !elem_of_cons. tauto. }
    exists errors. split; [done|]. intros s. by apply run_POST_invalid.
  - intros t c a g Ht Hc Ha Hg post.
    assert (Hv : validate body = inr post) by by apply validate_inr.
    split; [done|]. intros s Hup. unfold reply, after.
    rewrite (run_POST_valid _ _ _ Hv). split; [by rewrite run_create|].
    by apply documents_after_create.
Qed.

(** C8: when the store raises, either handler answers with status 500
    and the message of the error as detail; against an unreachable store
    both do so and leave the store as it was; once the store is reachable
    again the same calls succeed. *)
Theorem storage_error_is_500 (post : CommunityPostIn) (limit : Z) (s : store) (e : string) :
  outage s = Some e →
  create_community_post_k (Raised e) = Respond (HTTPException 500 e)
  ∧ get_community_posts_k py_str (Raised e) = Respond (HTTPException 500 e)
  ∧ run py_str (create_community_post post) s
    = (HTTPException 500 e, s, [Created "communitypost" (model_dump post)])
  ∧ run py_str (get_community_posts py_str limit) s
    = (HTTPException 500 e, s, [Listed "communitypost" ∅ limit])
  ∧ reply py_str (create_community_post post)
      (reconnect (after py_str (create_community_post post) s))
    = created (py_str (VObjectId (next_oid s)))
  ∧ reply py_str (get_community_posts py_str limit)
      (reconnect (after py_str (get_community_posts py_str limit) s))
    = JSONResponse
        {[ "posts" := VList (VDict <$> (convert_id py_str <$>
                        take (Z.to_nat limit) (with_id <$> documents "communitypost" s))) ]}.
Proof.
  intros Hdown. repeat split.
  - by apply run_create_outage.
  - by apply run_list_outage.
  - unfold reply, after. rewrite (run_create_outage _ _ _ Hdown). by rewrite run_create.
  - unfold reply, after. rewrite (run_list_outage _ _ _ Hdown). by rewrite run_list.
Qed.

(** C4: for a limit [N ≥ 0], [get_community_posts] answers an
    unreachable store with status 500 and a reachable one with at most
    [N] posts, none when [N = 0]; the handler returns one post per
    document the store returned. *)
Theorem list_at_most_limit (N : Z) (s : store) :
  0 ≤ N →
  (∀ docs, get_community_posts_k py_str (Returned docs)
           = Respond (JSONResponse {[ "posts" := VList (VDict <$> (convert_id py_str <$> docs)) ]})
           ∧ length (VDict <$> (convert_id py_str <$> docs)) = length docs)
  ∧ match outage s with
    | Some e => reply py_str (get_community_posts py_str N) s = HTTPException 500 e
    | None =>
        ∃ posts, reply py_str (get_community_posts py_str N) s
                 = JSONResponse {[ "posts" := VList posts ]}
          ∧ Z.of_nat (length posts) ≤ N
          ∧ (N = 0 → posts = [])
    end.
Proof.
  intros HN. split.
  - intros docs. split; [done|]. by rewrite !length_fmap.
  - destruct (outage s) as [e|] eqn:E.
    + unfold reply. by rewrite (run_list_outage _ _ _ E).
    + eexists. unfold reply. rewrite (run_list _ _ E). split; [done|]. split.
      * rewrite !length_fmap, length_take. lia.
      * by intros ->.
Qed.

(** C3: after a valid body is posted to a reachable store that holds [n]
    posts, a listing with a limit above [n] has at position [n] the
    document that was posted, with the very string [create_post]
    returned under ["id"]. *)
Theorem create_then_list_same_id (body : gmap string value) (post : CommunityPostIn)
    (s : store) (limit : Z) :
  validate body = inr post →
  outage s = None →
  Z.of_nat (length (documents "communitypost" s)) < limit →
  ∃ i posts,
    reply py_str (POST_posts body) s = created i
    ∧ reply py_str (get_community_posts py_str limit) (after py_str (POST_posts body) s)
      = JSONResponse {[ "posts" := VList posts ]}
    ∧ posts !! length (documents "communitypost" s)
      = Some (VDict (<["id" := VStr i]> (model_dump post))).
Proof.
  intros Hv Hup Hlim. eexists _, _. unfold reply, after.
  rewrite (run_POST_valid _ _ _ Hv).
  split; [by rewrite run_create|].
  pose proof (outage_after_create post s Hup) as Hup'.
  pose proof (documents_after_create post s Hup) as Hdocs.
  unfold after in Hup', Hdocs.
  split; [by rewrite (run_list _ _ Hup')|].
  rewrite Hdocs, !list_lookup_fmap.
  rewrite lookup_take_lt by lia.
  rewrite list_lookup_fmap, lookup_app_r by lia.
  rewrite Nat.sub_diag. simpl.
  by rewrite convert_id_with_id by apply model_dump_no_id.
Qed.

(** Every document the store returns includes its native identity. *)
Lemma get_documents_native_id (collection_name : string) (filter_dict : gmap string value)
    (limit : Z) (s : store) (docs : list (gmap string value)) :
  get_documents collection_name filter_dict limit s = Returned docs →
  Forall (λ p, is_Some (p !! "_id")) docs.
Proof.
  unfold get_documents. destruct (outage s); [done|]. intros [= <-].
  apply Forall_forall. intros p Hp.
  apply elem_of_take in Hp as (n & Hp & _).
  apply list_elem_of_lookup_2, list_elem_of_In, List.filter_In in Hp as [Hp _].
  apply list_elem_of_In, list_elem_of_fmap in Hp as [d [-> _]].
  rewrite with_id_lookup. eauto.
Qed.

(** C2: whatever documents the store returns, no post of the response
    has a field ["_id"], and the post made from a document that carries
    its native identity has a string under ["id"]; as every document of
    the store carries one, every post of every listing has a string
    [id] and no ["_id"]. *)
Theorem list_posts_expose_id (docs : list (gmap string value)) :
  (∃ posts,
     get_community_posts_k py_str (Returned docs)
     = Respond (JSONResponse {[ "posts" := VList (VDict <$> posts) ]})
     ∧ length posts = length docs
     ∧ Forall (λ p, p !! "_id" = None) posts
     ∧ (Forall (λ p, is_Some (p !! "_id")) docs → Forall exposes_id posts))
  ∧ (∀ limit s body,
       reply py_str (get_community_posts py_str limit) s = JSONResponse body →
       ∃ posts, body = {[ "posts" := VList (VDict <$> posts) ]}
                ∧ Forall exposes_id posts).
Proof.
  split.
  - exists (convert_id py_str <$> docs). split; [done|].
    split; [by rewrite length_fmap|]. split.
    + apply Forall_fmap, Forall_true. intros p. apply convert_id_no_native.
    + intros H. apply Forall_fmap. eapply Forall_impl; [exact H|].
      intros p Hp. by apply convert_id_exposes.
  - intros limit s body. unfold reply, get_community_posts. cbn [run].
    destruct (get_documents "communitypost" ∅ limit s) as [ds|e] eqn:E; [|done].
    simpl. intros [= <-]. eexists. split; [done|].
    apply Forall_fmap. eapply Forall_impl; [exact (get_documents_native_id _ _ _ _ _ E)|].
    intros p Hp. by apply convert_id_exposes.
Qed.

(** C1, the code at the scenario's input: after the body
    [{"title":"Hello","content":"First post","author":"alice"}] is posted
    to a reachable store with no post, a listing with limit 1 returns
    exactly one post, with the id [create_post] returned, the title, the
    content, the author and empty tags.  The [likes] counter that
    [schemas.CommunityPost] declares for the collection, with default 0,
    is not in it: [create_community_post] dumps [CommunityPostIn], which
    leaves the field out, so the post falls short of the schema here. *)
Theorem hello_listed_without_likes (s : store) :
  documents "communitypost" s = [] →
  outage s = None →
  let i := py_str (VObjectId (next_oid s)) in
  let post : gmap string value :=
    {[ "id" := VStr i; "title" := VStr "Hello"; "content" := VStr "First post";
       "author" := VStr "alice"; "tags" := VList [] ]} in
  reply py_str (POST_posts Sample.hello) s = created i
  ∧ reply py_str (get_community_posts py_str 1) (after py_str (POST_posts Sample.hello) s)
    = JSONResponse {[ "posts" := VList [VDict post] ]}
  ∧ post !! "likes" = None.
Proof.
  intros Hempty Hup i post.
  set (p := {| title := "Hello"; content := "First post"; author := "alice";
               tags := Some [] |}).
  assert (Hv : validate Sample.hello = inr p) by reflexivity.
  unfold reply, after. rewrite (run_POST_valid _ _ _ Hv).
  split; [by rewrite run_create|].
  pose proof (outage_after_create p s Hup) as Hup'.
  pose proof (documents_after_create p s Hup) as Hdocs.
  unfold after in Hup', Hdocs.
  split; [|done].
  rewrite (run_list _ _ Hup'), Hdocs, Hempty. simpl.
  rewrite convert_id_with_id by done.
  reflexivity.
Qed.

End CommunityResults.

(** ** The scenarios, run *)

Section Scenarios.
Import Community Database Service Sample.

(** C1 at the scenario itself: the one post listed after the creation
    is not the post with [likes] 0 that the schema of the collection
    calls for. *)
Lemma hello_listed_with_likes_counterexample :
  ¬ ∃ i,
      reply str_of_id (POST_posts hello) empty_store = created i
      ∧ reply str_of_id (get_community_posts str_of_id 1)
          (after str_of_id (POST_posts hello) empty_store)
        = JSONResponse
            {[ "posts" :=
                 VList [VDict {[ "id" := VStr i; "title" := VStr "Hello";
                                 "content" := VStr "First post";
                                 "author" := VStr "alice"; "tags" := VList [];
                                 "likes" := VInt 0 ]}] ]}.
Proof.
  intros (i & _ & H). rewrite hello_listed in H.
  apply (f_equal (λ r, match r with
                       | JSONResponse body =>
                           match body !! "posts" with
                           | Some (VList [VDict p]) => p !! "likes"
                           | _ => None
                           end
                       | _ => None
                       end)) in H.
  vm_compute in H. discriminate H.
Qed.

Lemma hello_listed_without_likes_witness :
  documents "communitypost" empty_store = []
  ∧ outage empty_store = None
  ∧ reply str_of_id (get_community_posts str_of_id 1)
      (after str_of_id (POST_posts hello) empty_store)
    = JSONResponse
        {[ "posts" :=
             VList [VDict {[ "id" := VStr "000000000000000000000000";
                             "title" := VStr "Hello"; "content" := VStr "First post";
                             "author" := VStr "alice"; "tags" := VList [] ]}] ]}.
Proof.
  split; [reflexivity|]. split; [reflexivity|].
  exact (proj1 (proj2 (hello_listed_without_likes str_of_id empty_store eq_refl eq_refl))).
Defined.

Lemma list_posts_expose_id_witness :
  Forall (λ p : gmap string value, is_Some (p !! "_id"))
    [ <["_id" := VObjectId 7]> hello ]
  ∧ ∃ posts,
      get_community_posts_k str_of_id (Returned [ <["_id" := VObjectId 7]> hello ])
      = Respond (JSONResponse {[ "posts" := VList (VDict <$> posts) ]})
      ∧ Forall exposes_id posts.
Proof.
  assert (H : Forall (λ p : gmap string value, is_Some (p !! "_id"))
                [ <["_id" := VObjectId 7]> hello ]).
  { repeat constructor. by eexists. }
  split; [exact H|].
  destruct (proj1 (list_posts_expose_id str_of_id [ <["_id" := VObjectId 7]> hello ]))
    as (posts & Hk & _ & _ & Hid).
  exists posts. split; [exact Hk | exact (Hid H)].
Defined.

Lemma create_then_list_same_id_witness :
  validate hello = inr {| title := "Hello"; content := "First post";
                          author := "alice"; tags := Some [] |}
  ∧ outage empty_store = None
  ∧ Z.of_nat (length (documents "communitypost" empty_store)) < 20
  ∧ ∃ i posts,
      reply str_of_id (POST_posts hello) empty_store = created i
      ∧ reply str_of_id (get_community_posts str_of_id 20)
          (after str_of_id (POST_posts hello) empty_store)
        = JSONResponse {[ "posts" := VList posts ]}
      ∧ posts !! length (documents "communitypost" empty_store)
        = Some (VDict (<["id" := VStr i]>
                         (model_dump {| title := "Hello"; content := "First post";
                                        author := "alice"; tags := Some [] |}))).
Proof.
  split; [reflexivity|]. split; [reflexivity|]. split; [reflexivity|].
  apply (create_then_list_same_id str_of_id hello _ empty_store 20);
    reflexivity.
Defined.

Lemma list_at_most_limit_witness :
  0 ≤ 0
  ∧ ∃ posts,
      reply str_of_id (get_community_posts str_of_id 0)
        (after str_of_id (POST_posts hello) empty_store)
      = JSONResponse {[ "posts" := VList posts ]}
      ∧ Z.of_nat (length posts) ≤ 0
      ∧ (0 = 0 → posts = []).
Proof.
  split; [lia|].
  exact (proj2 (list_at_most_limit str_of_id 0
                  (after str_of_id (POST_posts hello) empty_store) (Z.le_refl 0))).
Defined.

(** C5 as the spec has it fails: an empty title is not rejected. *)
Lemma create_empty_title_counterexample :
  ¬ ∃ errors,
      run str_of_id (POST_posts empty_title) empty_store
      = (RequestValidationError errors, empty_store, []).
Proof. intros [errors H]. vm_compute in H. discriminate H. Qed.

Lemma create_requires_text_not_nonempty_witness :
  empty_title !! "title" = Some (VStr EmptyString)
  ∧ empty_title !! "content" = Some (VStr "First post")
  ∧ empty_title !! "author" = Some (VStr "alice")
  ∧ validate_tags empty_title = inr (Some [])
  ∧ outage empty_store = None
  ∧ reply str_of_id (POST_posts empty_title) empty_store
    = created (str_of_id (VObjectId (next_oid empty_store))).
Proof.
  repeat (split; [reflexivity|]).
  exact (proj1 (proj2 (proj2 (create_requires_text_not_nonempty str_of_id empty_title)
                         EmptyString "First post" "alice" (Some [])
                         eq_refl eq_refl eq_refl eq_refl)
                 empty_store eq_refl)).
Defined.

Lemma create_tags_omitted_witness :
  hello !! "title" = Some (VStr "Hello")
  ∧ hello !! "content" = Some (VStr "First post")
  ∧ hello !! "author" = Some (VStr "alice")
  ∧ hello !! "tags" = None
  ∧ ∃ data,
      POST_posts hello = Call_create_document "communitypost" data create_community_post_k
      ∧ data !! "tags" = Some (VList []).
Proof.
  repeat (split; [reflexivity|]).
  destruct (create_tags_omitted str_of_id hello "Hello" "First post" "alice"
              eq_refl eq_refl eq_refl eq_refl) as (data & H1 & H2 & _).
  exists data. split; [exact H1 | exact H2].
Defined.

Lemma create_tags_null_witness :
  null_tags !! "title" = Some (VStr "Hello")
  ∧ null_tags !! "content" = Some (VStr "First post")
  ∧ null_tags !! "author" = Some (VStr "alice")
  ∧ null_tags !! "tags" = Some VNone
  ∧ ∃ data,
      POST_posts null_tags = Call_create_document "communitypost" data create_community_post_k
      ∧ data !! "tags" = Some VNone.
Proof.
  repeat (split; [reflexivity|]).
  destruct (create_tags_null str_of_id null_tags "Hello" "First post" "alice"
              eq_refl eq_refl eq_refl eq_refl) as (data & H1 & H2 & _).
  exists data. split; [exact H1 | exact H2].
Defined.

Lemma create_missing_field_rejected_witness :
  (no_author !! "title" = None ∨ no_author !! "content" = None
   ∨ no_author !! "author" = None)
  ∧ ∃ errors, errors ≠ []
      ∧ run str_of_id (POST_posts no_author) empty_store
        = (RequestValidationError errors, empty_store, []).
Proof.
  assert (H : no_author !! "title" = None ∨ no_author !! "content" = None
              ∨ no_author !! "author" = None) by (right; right; reflexivity).
  split; [exact H|].
  destruct (create_missing_field_rejected str_of_id no_author H) as (errors & Hne & _ & Hrun).
  exists errors. split; [exact Hne | exact (Hrun empty_store)].
Defined.

Lemma storage_error_is_500_witness :
  outage (disconnect "connection refused" empty_store) = Some "connection refused"
  ∧ run str_of_id (get_community_posts str_of_id 20)
      (disconnect "connection refused" empty_store)
    = (HTTPException 500 "connection refused",
       disconnect "connection refused" empty_store,
       [Listed "communitypost" ∅ 20]).
Proof.
  split; [reflexivity|].
  exact (proj1 (proj2 (proj2 (proj2
    (storage_error_is_500 str_of_id
       {| title := "Hello"; content := "First post"; author := "alice"; tags := Some [] |}
       20 (disconnect "connection refused" empty_store) "connection refused" eq_refl))))).
Defined.

End Scenarios.

(** * Further properties of the code *)

(** ** The nutrition estimate, for every text *)

Section NutritionFurther.
Import Nutrition.

Variable lower : string → string.

Lemma nutrition_estimate_eq (inp : NutritionInput) :
  nutrition_estimate lower inp
  = let hits := found (lower (text inp)) db_map in
    Estimate (sum_calories hits) hits
      (match hits with [] => 0.2%Q | _ => 0.5%Q end).
Proof. unfold nutrition_estimate. by rewrite loop_found. Qed.

Lemma found_elem (txt k : string) (v : Z) (table : list (string * Z)) :
  Hit k v ∈ found txt table ↔ (k, v) ∈ table ∧ contains k txt = true.
Proof.
  unfold found. rewrite list_elem_of_fmap. split.
  - intros ([k' v'] & [= -> ->] & Hin).
    apply list_elem_of_In, List.filter_In in Hin as [Hin Hc].
    by rewrite list_elem_of_In.
  - intros [Hin Hc]. exists (k, v). split; [done|].
    apply list_elem_of_In, List.filter_In. by rewrite <- list_elem_of_In.
Qed.

Lemma found_sublist (txt : string) (table : list (string * Z)) :
  sublist (found txt table) (hit_of <$> table).
Proof.
  induction table as [|[k v] table IH]; [constructor|].
  rewrite found_cons, fmap_cons.
  destruct (contains k txt); by constructor.
Qed.

Lemma sum_calories_sublist (hs hs' : list hit) :
  Forall (λ h, 0 < calories h) hs' → sublist hs hs' →
  0 ≤ sum_calories hs ≤ sum_calories hs'.
Proof.
  intros Hpos Hsub. induction Hsub as [|h hs hs' Hsub IH|h hs hs' Hsub IH];
    unfold sum_calories in *; simpl.
  - lia.
  - apply Forall_cons in Hpos as [Hh Hpos]. specialize (IH Hpos). lia.
  - apply Forall_cons in Hpos as [Hh Hpos]. specialize (IH Hpos). lia.
Qed.

Lemma db_map_positive : Forall (λ h, 0 < calories h) (hit_of <$> db_map).
Proof. repeat constructor. Qed.

Lemma sum_calories_zero (hs : list hit) :
  Forall (λ h, 0 < calories h) hs → sum_calories hs = 0 → hs = [].
Proof.
  destruct hs as [|h hs]; [done|]. intros Hpos.
  apply Forall_cons in Hpos as [Hh Hpos].
  pose proof (sum_calories_sublist hs hs Hpos (reflexivity _)) as Hs.
  unfold sum_calories in *. simpl. lia.
Qed.

(** X1: an entry is among the items exactly when it is an entry of the
    table and its keyword occurs somewhere in the lowercased text, be it
    inside a longer word. *)
Theorem nutrition_item_iff (inp : NutritionInput) (k : string) (v : Z) :
  Hit k v ∈ items (nutrition_estimate lower inp)
  ↔ (k, v) ∈ db_map ∧ ∃ a b, lower (text inp) = a +:+ k +:+ b.
Proof.
  rewrite nutrition_estimate_eq. cbn [items].
  by rewrite found_elem, contains_spec.
Qed.

(** X2: the estimate is empty exactly when no keyword of the table
    occurs in the lowercased text; then, and only then, the total is 0
    and the confidence is 0.2, and otherwise the confidence is 0.5. *)
Theorem nutrition_nothing_found (inp : NutritionInput) :
  let r := nutrition_estimate lower inp in
  (items r = [] ↔ ∀ k v, (k, v) ∈ db_map → contains k (lower (text inp)) = false)
  ∧ (estimated_calories r = 0 ↔ items r = [])
  ∧ (confidence r = 0.2%Q ↔ items r = [])
  ∧ (confidence r = 0.5%Q ↔ items r ≠ []).
Proof.
  intros r. unfold r. rewrite nutrition_estimate_eq. cbn [items estimated_calories confidence].
  set (txt := lower (text inp)). split; [|split; [|split]].
  - split.
    + intros Hnil k v Hin. destruct (contains k txt) eqn:E; [|done].
      assert (Hit k v ∈ found txt db_map) as Hh by by apply found_elem.
      rewrite Hnil in Hh. by apply elem_of_nil in Hh.
    + intros Hnone. destruct (found txt db_map) as [|[k v] hs] eqn:E; [done|].
      assert (Hit k v ∈ found txt db_map) as Hh by (rewrite E; left).
      apply found_elem in Hh as [Hin Hc]. by rewrite (Hnone k v Hin) in Hc.
  - split; [|by intros ->].
    apply sum_calories_zero.
    apply Forall_forall. intros h Hh.
    pose proof db_map_positive as Hpos. rewrite Forall_forall in Hpos.
    apply Hpos. eapply elem_of_sublist; [exact Hh | apply found_sublist].
  - by destruct (found txt db_map).
  - by destruct (found txt db_map).
Qed.

(** X3: the items are entries of the table in table order, whatever the
    order of the words in the text; there are at most 13 of them and the
    total lies between 0 and 1611. *)
Theorem nutrition_bounds (inp : NutritionInput) :
  let r := nutrition_estimate lower inp in
  sublist (items r) (hit_of <$> db_map)
  ∧ (length (items r) ≤ 13)%nat
  ∧ 0 ≤ estimated_calories r ≤ 1611.
Proof.
  intros r. unfold r. rewrite nutrition_estimate_eq. cbn [items estimated_calories].
  pose proof (found_sublist (lower (text inp)) db_map) as Hsub.
  split; [done|]. split.
  - by apply sublist_length in Hsub.
  - pose proof (sum_calories_sublist _ _ db_map_positive Hsub) as H.
    change (sum_calories (hit_of <$> db_map)) with 1611 in H. exact H.
Qed.

End NutritionFurther.

(** ** The chat replies *)

Section ChatFurther.
Import Chat.

Variable lower : string → string.

Lemma replies_distinct :
  breathing ≠ bedtime ∧ breathing ≠ plate ∧ breathing ≠ tell_me
  ∧ bedtime ≠ plate ∧ bedtime ≠ tell_me ∧ plate ≠ tell_me.
Proof. repeat split; intros H; vm_compute in H; discriminate H. Qed.

(** X4: the reply follows the first keyword group that occurs in the
    lowercased message: "stress" or "anxious" before "sleep", "sleep"
    before "diet" or "food", and the general invitation only when none
    of the five occurs. *)
Theorem chat_reply_priority (input : ChatInput) :
  let text := lower (message input) in
  let r := reply_of lower input in
  (r = breathing ↔ contains "stress" text = true ∨ contains "anxious" text = true)
  ∧ (r = bedtime ↔ contains "stress" text = false ∧ contains "anxious" text = false
                   ∧ contains "sleep" text = true)
  ∧ (r = plate ↔ contains "stress" text = false ∧ contains "anxious" text = false
                 ∧ contains "sleep" text = false
                 ∧ (contains "diet" text = true ∨ contains "food" text = true))
  ∧ (r = tell_me ↔ contains "stress" text = false ∧ contains "anxious" text = false
                   ∧ contains "sleep" text = false ∧ contains "diet" text = false
                   ∧ contains "food" text = false).
Proof.
  intros text r. unfold r, reply_of. fold text.
  destruct replies_distinct as (H1 & H2 & H3 & H4 & H5 & H6).
  destruct (contains "stress" text), (contains "anxious" text),
    (contains "sleep" text), (contains "diet" text), (contains "food" text);
    cbn [orb]; repeat split; try done; try tauto; intros; try congruence;
    intuition congruence.
Qed.

End ChatFurther.

(** ** The mood estimate *)

Section MoodFurther.
Import Mood.

Lemma fold_left_add (l : list Z) (a : Z) :
  fold_left Z.add l a = a + sum l.
Proof.
  unfold sum. revert a. induction l as [|x l IH]; intros a; simpl; [lia|].
  rewrite (IH (a + x)), (IH (0 + x)). lia.
Qed.

Lemma sum_cons (x : Z) (l : list Z) : sum (x :: l) = x + sum l.
Proof. unfold sum at 1. simpl. by rewrite fold_left_add. Qed.

Lemma sum_Permutation (l l' : list Z) : l ≡ₚ l' → sum l = sum l'.
Proof.
  induction 1 as [|x l l' _ IH|x y l|l l' l'' _ IH _ IH'];
    rewrite ?sum_cons; [done|by rewrite IH|lia|congruence].
Qed.

Lemma getitem_in_range {A : Type} (l : list A) (i : Z) :
  0 ≤ i < Z.of_nat (length l) → ∃ x, getitem l i = Some x ∧ x ∈ l.
Proof.
  intros Hi. unfold getitem.
  destruct (Z.leb_spec 0 i); [|lia].
  destruct (lookup_lt_is_Some_2 l (Z.to_nat i)) as [x Hx]; [lia|].
  exists x. split; [done|]. by eapply list_elem_of_lookup_2.
Qed.

(** X5: the score lies in 0..99 and the index into [moods] is always in
    range: for every URL, the empty one included, a mood is chosen and it
    is one of the five. *)
Theorem mood_always_chosen (payload : ImageInput) :
  0 ≤ score payload < 100
  ∧ ∃ m, mood payload = Some m ∧ m ∈ moods.
Proof.
  assert (Hs : 0 ≤ score payload < 100) by (unfold score; apply Z.mod_pos_bound; lia).
  split; [done|]. unfold mood. apply getitem_in_range.
  apply Z.mod_pos_bound. simpl. lia.
Qed.

(** X6: as 5 divides 100, the mood is the entry of [moods] at the sum of
    the code points modulo 5; so two URLs made of the same characters in
    any order get the same score and the same mood. *)
Theorem mood_by_sum_mod_5 (payload other : ImageInput) :
  mood payload = moods !! Z.to_nat (sum (ord <$> image_url payload) mod 5)
  ∧ (image_url payload ≡ₚ image_url other →
     score payload = score other ∧ mood payload = mood other).
Proof.
  split.
  - unfold mood, score, getitem. change (Z.of_nat (length moods)) with 5.
    rewrite Z.mod_mod_divide by (by exists 20).
    destruct (Z.leb_spec 0 (sum (ord <$> image_url payload) mod 5)) as [|H]; [done|].
    pose proof (Z.mod_pos_bound (sum (ord <$> image_url payload)) 5). lia.
  - intros Hp.
    assert (score payload = score other) as Hs.
    { unfold score. f_equal. apply sum_Permutation. by apply fmap_Permutation. }
    split; [done|]. unfold mood. by rewrite Hs.
Qed.

End MoodFurther.

Lemma mood_by_sum_mod_5_witness :
  Mood.codepoints "ab.png" ≡ₚ Mood.codepoints "ba.png"
  ∧ Mood.mood {| Mood.image_url := Mood.codepoints "ab.png" |}
    = Mood.mood {| Mood.image_url := Mood.codepoints "ba.png" |}.
Proof.
  assert (H : Mood.codepoints "ab.png" ≡ₚ Mood.codepoints "ba.png")
    by (vm_compute; apply perm_swap).
  split; [exact H|].
  exact (proj2 (proj2 (mood_by_sum_mod_5
                         {| Mood.image_url := Mood.codepoints "ab.png" |}
                         {| Mood.image_url := Mood.codepoints "ba.png" |}) H)).
Defined.

(** ** The database self-test *)

Section HealthFurther.
Import Community Health.

Variable first_chars : nat → string → string.

(** X7: the self-test shows at most ten collection names, the first ten
    in the order the store lists them, and none when there is no database
    handle or the listing raises. *)
Theorem test_database_collections_capped (db : option database)
    (DATABASE_URL : option string) :
  let shown :=
    match db with
    | Some d => match list_collection_names d with
                | Returned names => take 10 names
                | Raised _ => []
                end
    | None => []
    end in
  test_database first_chars db DATABASE_URL !! "collections"
  = Some (VList (VStr <$> shown))
  ∧ (length shown ≤ 10)%nat.
Proof.
  intros shown. unfold shown. split.
  - destruct db as [d|]; [|done]. unfold test_database.
    by destruct (list_collection_names d).
  - destruct db as [d|]; [|simpl; lia].
    destruct (list_collection_names d); [|simpl; lia].
    rewrite length_take. lia.
Qed.

(** X8: the self-test always answers with the same six fields and a
    running backend; it reports "Connected" exactly when there is a
    database handle, a set [DATABASE_URL] exactly when there is a handle
    and the variable is set and not empty, and "Connected & Working"
    exactly when the listing of the collections returned. *)
Theorem test_database_status (db : option database) (DATABASE_URL : option string) :
  let r := test_database first_chars db DATABASE_URL in
  r !! "backend" = Some (VStr "✅ Running")
  ∧ dom r = {[ "backend"; "database"; "database_url"; "database_name";
               "connection_status"; "collections" ]}
  ∧ (r !! "connection_status" = Some (VStr "Connected") ↔ is_Some db)
  ∧ (r !! "database_url" = Some (VStr "✅ Set")
     ↔ is_Some db ∧ truthy DATABASE_URL = true)
  ∧ (r !! "database" = Some (VStr "✅ Connected & Working")
     ↔ ∃ d names, db = Some d ∧ list_collection_names d = Returned names).
Proof.
  intros r. unfold r, test_database. split; [|split; [|split; [|split]]].
  - destruct db as [d|]; [by destruct (list_collection_names d) | done].
  - destruct db as [d|]; [by destruct (list_collection_names d) | done].
  - destruct db as [d|].
    + split; [by eauto|]. intros _. by destruct (list_collection_names d).
    + split; [intros H; vm_compute in H; discriminate H | by intros [? ?]].
  - destruct db as [d|].
    + destruct (truthy DATABASE_URL) eqn:T.
      * split; [by eauto|]. intros _. by destruct (list_collection_names d).
      * split; [|by intros [_ ?]]. intros H.
        destruct (list_collection_names d); vm_compute in H; discriminate H.
    + split; [intros H; vm_compute in H; discriminate H | by intros [[? ?] _]].
  - destruct db as [d|].
    + destruct (list_collection_names d) as [names|e] eqn:E.
      * split; [by eauto | done].
      * split; [intros H; vm_compute in H; discriminate H|].
        intros (d' & names & [= <-] & H). congruence.
    + split; [intros H; vm_compute in H; discriminate H | by intros (? & ? & ? & _)].
Qed.

End HealthFurther.

(** ** The community board: validation and the identity conversion *)

Section CommunityFurther.
Import Community Database Service.

Variable py_str : value → string.

Lemma validate_str_insert_ne (name k : string) (v : value) (body : gmap string value) :
  k ≠ name → validate_str name (<[k := v]> body) = validate_str name body.
Proof. intros Hne. unfold validate_str. by rewrite lookup_insert_ne. Qed.

Lemma validate_tags_insert_ne (k : string) (v : value) (body : gmap string value) :
  k ≠ "tags" → validate_tags (<[k := v]> body) = validate_tags body.
Proof. intros Hne. unfold validate_tags. by rewrite lookup_insert_ne. Qed.

Lemma validate_str_inl_single (name : string) (body : gmap string value)
    (errors : list error_detail) :
  validate_str name body = inl errors → ∃ e, errors = [e].
Proof.
  unfold validate_str. destruct (body !! name) as [[]|]; intros [= <-]; eauto.
Qed.

Lemma validate_tags_inl_nonempty (body : gmap string value) (errors : list error_detail) :
  validate_tags body = inl errors → errors ≠ [].
Proof.
  unfold validate_tags. destruct (body !! "tags") as [[| | | |l| |]|]; try by intros [= <-].
  destruct (validate_items 0 l) as [[|e es] strs]; by intros [= <-].
Qed.

(** A rejection lists the errors of the four fields in declaration
    order. *)
Lemma validate_inl_errors (body : gmap string value) (errors : list error_detail) :
  validate body = inl errors →
  errors = errors_of (validate_str "title" body) ++ errors_of (validate_str "content" body)
           ++ errors_of (validate_str "author" body) ++ errors_of (validate_tags body).
Proof.
  unfold validate.
  destruct (validate_str "title" body), (validate_str "content" body),
    (validate_str "author" body), (validate_tags body); by intros [= <-].
Qed.

Lemma validate_field_inl (body : gmap string value) :
  (∃ e, validate_str "title" body = inl e) ∨ (∃ e, validate_str "content" body = inl e)
  ∨ (∃ e, validate_str "author" body = inl e) ∨ (∃ e, validate_tags body = inl e) →
  validate body
  = inl (errors_of (validate_str "title" body) ++ errors_of (validate_str "content" body)
         ++ errors_of (validate_str "author" body) ++ errors_of (validate_tags body)).
Proof.
  unfold validate.
  destruct (validate_str "title" body), (validate_str "content" body),
    (validate_str "author" body), (validate_tags body); try done.
  intros [[e H]|[[e H]|[[e H]|[e H]]]]; discriminate H.
Qed.

Lemma validate_inl_nonempty (body : gmap string value) (errors : list error_detail) :
  validate body = inl errors → errors ≠ [].
Proof.
  intros Hv. rewrite (validate_inl_errors _ _ Hv). unfold validate in Hv.
  destruct (validate_str "title" body) as [e1|] eqn:E1.
  { destruct (validate_str_inl_single _ _ _ E1) as [e ->]. simpl. by destruct (errors_of _). }
  destruct (validate_str "content" body) as [e2|] eqn:E2.
  { destruct (validate_str_inl_single _ _ _ E2) as [e ->]. simpl. by destruct (errors_of _). }
  destruct (validate_str "author" body) as [e3|] eqn:E3.
  { destruct (validate_str_inl_single _ _ _ E3) as [e ->]. simpl. by destruct (errors_of _). }
  destruct (validate_tags body) as [e4|] eqn:E4; [|done].
  simpl. exact (validate_tags_inl_nonempty body e4 E4).
Qed.

Lemma validate_items_strings (l : list value) (i : nat) (strs : list string) :
  validate_items i l = ([], strs) → l = VStr <$> strs.
Proof.
  revert i strs. induction l as [|v l IH]; intros i strs; simpl.
  - by intros [= <-].
  - destruct (validate_items (S i) l) as [errors strs'] eqn:E.
    destruct v; try by intros [= ].
    intros [= -> <-]. by rewrite (IH _ _ E).
Qed.

Lemma validate_items_error (l : list value) (i n : nat) (v : value) :
  l !! n = Some v → (∀ s, v ≠ VStr s) →
  ErrorDetail "string_type" [Field "body"; Field "tags"; Index (i + n)]
  ∈ (validate_items i l).1.
Proof.
  revert i n. induction l as [|w l IH]; intros i n Hn Hv; [done|].
  simpl. destruct (validate_items (S i) l) as [errors strs] eqn:E.
  destruct n as [|n].
  - simpl in Hn. injection Hn as ->. rewrite Nat.add_0_r.
    destruct v; try (simpl; left). by destruct (Hv s).
  - simpl in Hn. pose proof (IH (S i) n Hn Hv) as Hin. rewrite E in Hin. simpl in Hin.
    replace (i + S n)%nat with (S i + n)%nat by lia.
    destruct w; simpl; try right; done.
Qed.

(** X9: keys the model does not declare are ignored, so a request is
    handled as if they were absent; the document handed to the store has
    the four declared fields and no other, whatever the client sent. *)
Theorem create_ignores_undeclared_keys (body : gmap string value) (k : string) (v : value) :
  (k ∉ ["title"; "content"; "author"; "tags"] →
   POST_posts (<[k := v]> body) = POST_posts body)
  ∧ ∀ post, dom (model_dump post) = {[ "title"; "content"; "author"; "tags" ]}.
Proof.
  split; [|done]. intros Hk.
  rewrite !not_elem_of_cons in Hk. destruct Hk as (H1 & H2 & H3 & H4 & _).
  unfold POST_posts, validate.
  by rewrite !validate_str_insert_ne, validate_tags_insert_ne.
Qed.

(** X10: an accepted request is stored verbatim: on each of the four
    declared fields that the body sets, the document handed to the store
    holds the very value of the body, the tags in their order and with
    their duplicates. *)
Theorem create_stores_body_verbatim (body : gmap string value) (post : CommunityPostIn)
    (name : string) (v : value) :
  validate body = inr post →
  name ∈ ["title"; "content"; "author"; "tags"] →
  body !! name = Some v →
  POST_posts body
  = Call_create_document "communitypost" (model_dump post) create_community_post_k
  ∧ model_dump post !! name = Some v.
Proof.
  intros Hv Hname Hb. split; [unfold POST_posts; by rewrite Hv|].
  apply validate_inr in Hv as (Ht & Hc & Ha & Hg).
  rewrite !elem_of_cons in Hname.
  destruct Hname as [->|[->|[->|[->|Hn]]]]; [| | | |by apply elem_of_nil in Hn].
  - rewrite Ht in Hb. by injection Hb as <-.
  - rewrite Hc in Hb. by injection Hb as <-.
  - rewrite Ha in Hb. by injection Hb as <-.
  - rewrite model_dump_tags. unfold validate_tags in Hg. rewrite Hb in Hg.
    destruct v as [| | | |l| |]; try done.
    + by injection Hg as <-.
    + destruct (validate_items 0 l) as [[|e es] strs] eqn:E; [|done].
      injection Hg as <-. by rewrite (validate_items_strings _ _ _ E).
Qed.

(** X11: a [tags] list with an item that is not a string is rejected,
    the error names the index of the item, and the store is not called. *)
Theorem create_rejects_non_string_tag (body : gmap string value) (l : list value)
    (n : nat) (v : value) :
  body !! "tags" = Some (VList l) →
  l !! n = Some v →
  (∀ s, v ≠ VStr s) →
  ∃ errors,
    ErrorDetail "string_type" [Field "body"; Field "tags"; Index n] ∈ errors
    ∧ ∀ s, run py_str (POST_posts body) s = (RequestValidationError errors, s, []).
Proof.
  intros Hb Hn Hv.
  pose proof (validate_items_error l 0 n v Hn Hv) as Hin.
  assert (validate_tags body = inl (validate_items 0 l).1) as Hg.
  { unfold validate_tags. rewrite Hb.
    destruct (validate_items 0 l) as [[|e es] strs]; [|done].
    by apply elem_of_nil in Hin. }
  eexists. split; [|intros s; apply run_POST_invalid, validate_field_inl; eauto 10].
  rewrite Hg. cbn [errors_of]. rewrite !elem_of_app. by do 3 right.
Qed.

(** X12: a request either is rejected with at least one error and no
    call into the store, or is accepted and makes the single call
    [create_document("communitypost", post.model_dump())]; whatever that
    call does, the handler then ends, with the new id or with status
    500. *)
Theorem create_one_call_at_most (body : gmap string value) :
  ((∃ errors, errors ≠ [] ∧ POST_posts body = Respond (RequestValidationError errors))
   ∨ (∃ post, validate body = inr post
        ∧ POST_posts body
          = Call_create_document "communitypost" (model_dump post) create_community_post_k))
  ∧ ∀ o, (∃ i, o = Returned i ∧ create_community_post_k o = Respond (created i))
         ∨ (∃ e, o = Raised e ∧ create_community_post_k o = Respond (HTTPException 500 e)).
Proof.
  split.
  - unfold POST_posts. destruct (validate body) as [errors|post] eqn:E.
    + left. exists errors. split; [by eapply validate_inl_nonempty | done].
    + right. by exists post.
  - intros [i|e]; [left | right]; eauto.
Qed.

(** X13: every required field that is missing is reported by name, also
    when several are missing or other fields are wrong. *)
Theorem create_reports_each_missing_field (body : gmap string value) (name : string) :
  name ∈ ["title"; "content"; "author"] →
  body !! name = None →
  ∃ errors, validate body = inl errors
    ∧ ErrorDetail "missing" [Field "body"; Field name] ∈ errors.
Proof.
  intros Hname Hnone.
  assert (He : validate_str name body = inl [ErrorDetail "missing" [Field "body"; Field name]])
    by (unfold validate_str; by rewrite Hnone).
  exists (errors_of (validate_str "title" body) ++ errors_of (validate_str "content" body)
          ++ errors_of (validate_str "author" body) ++ errors_of (validate_tags body)).
  rewrite !elem_of_cons in Hname.
  destruct Hname as [->|[->|[->|Hn]]]; [| | |by apply elem_of_nil in Hn];
    (split; [apply validate_field_inl; eauto 10|]);
    rewrite He; cbn [errors_of]; rewrite !elem_of_app, !elem_of_cons; tauto.
Qed.

(** X14: the identity conversion touches the two fields ["_id"] and
    ["id"] only.  A document with ["_id"] gets [str] of it under ["id"],
    in place of any ["id"] it had; a document without ["_id"] is returned
    as it is; converting twice is converting once. *)
Theorem convert_id_fields (p : gmap string value) :
  (∀ k, k ≠ "_id" → k ≠ "id" → convert_id py_str p !! k = p !! k)
  ∧ (∀ oid, p !! "_id" = Some oid → convert_id py_str p !! "id" = Some (VStr (py_str oid)))
  ∧ (p !! "_id" = None → convert_id py_str p = p)
  ∧ convert_id py_str (convert_id py_str p) = convert_id py_str p.
Proof.
  split; [|split; [|split]].
  - intros k H1 H2. unfold convert_id. destruct (p !! "_id"); [|done].
    by rewrite lookup_insert_ne, lookup_delete_ne.
  - intros oid H. unfold convert_id. rewrite H. by rewrite lookup_insert_eq.
  - intros H. unfold convert_id. by rewrite H.
  - unfold convert_id at 1. by rewrite convert_id_no_native.
Qed.

End CommunityFurther.

(** ** The further properties, run *)

Section FurtherScenarios.
Import Community Database Service Sample.

Lemma create_ignores_undeclared_keys_witness :
  ("likes" ∉ ["title"; "content"; "author"; "tags"])
  ∧ POST_posts (<["likes" := VInt 99]> hello) = POST_posts hello.
Proof.
  assert (H : "likes" ∉ ["title"; "content"; "author"; "tags"])
    by (apply (bool_decide_unpack _); by vm_compute).
  split; [exact H|].
  exact (proj1 (create_ignores_undeclared_keys hello "likes" (VInt 99)) H).
Defined.

Lemma create_stores_body_verbatim_witness :
  validate (<["tags" := VList [VStr "a"; VStr "a"]]> hello)
  = inr {| title := "Hello"; content := "First post"; author := "alice";
           tags := Some ["a"; "a"] |}
  ∧ "tags" ∈ ["title"; "content"; "author"; "tags"]
  ∧ (<["tags" := VList [VStr "a"; VStr "a"]]> hello) !! "tags"
    = Some (VList [VStr "a"; VStr "a"])
  ∧ model_dump {| title := "Hello"; content := "First post"; author := "alice";
                  tags := Some ["a"; "a"] |} !! "tags"
    = Some (VList [VStr "a"; VStr "a"]).
Proof.
  assert (H : "tags" ∈ ["title"; "content"; "author"; "tags"])
    by (apply (bool_decide_unpack _); by vm_compute).
  split; [reflexivity|]. split; [exact H|]. split; [reflexivity|].
  exact (proj2 (create_stores_body_verbatim
                  (<["tags" := VList [VStr "a"; VStr "a"]]> hello) _ "tags" _
                  eq_refl H eq_refl)).
Defined.

Lemma create_rejects_non_string_tag_witness :
  (<["tags" := VList [VStr "a"; VInt 3]]> hello) !! "tags" = Some (VList [VStr "a"; VInt 3])
  ∧ [VStr "a"; VInt 3] !! 1%nat = Some (VInt 3)
  ∧ (∀ s, VInt 3 ≠ VStr s)
  ∧ ∃ errors,
      ErrorDetail "string_type" [Field "body"; Field "tags"; Index 1] ∈ errors
      ∧ run str_of_id (POST_posts (<["tags" := VList [VStr "a"; VInt 3]]> hello)) empty_store
        = (RequestValidationError errors, empty_store, []).
Proof.
  assert (H : ∀ s, VInt 3 ≠ VStr s) by (intros s; discriminate).
  assert (Hb : (<["tags" := VList [VStr "a"; VInt 3]]> hello) !! "tags"
               = Some (VList [VStr "a"; VInt 3])) by reflexivity.
  split; [exact Hb|]. split; [reflexivity|]. split; [exact H|].
  destruct (create_rejects_non_string_tag str_of_id
              (<["tags" := VList [VStr "a"; VInt 3]]> hello)
              [VStr "a"; VInt 3] 1 (VInt 3) Hb eq_refl H) as (errors & Hin & Hrun).
  exists errors. split; [exact Hin | exact (Hrun empty_store)].
Defined.

Lemma create_reports_each_missing_field_witness :
  "author" ∈ ["title"; "content"; "author"]
  ∧ no_author !! "author" = None
  ∧ ∃ errors, validate no_author = inl errors
      ∧ ErrorDetail "missing" [Field "body"; Field "author"] ∈ errors.
Proof.
  assert (H : "author" ∈ ["title"; "content"; "author"])
    by (apply (bool_decide_unpack _); by vm_compute).
  split; [exact H|]. split; [reflexivity|].
  exact (create_reports_each_missing_field no_author "author" H eq_refl).
Defined.

Lemma convert_id_fields_witness :
  (<["_id" := VObjectId 7]> (<["id" := VInt 5]> hello)) !! "_id" = Some (VObjectId 7)
  ∧ convert_id str_of_id (<["_id" := VObjectId 7]> (<["id" := VInt 5]> hello)) !! "id"
    = Some (VStr "000000000000000000000007").
Proof.
  split; [reflexivity|].
  exact (proj1 (proj2 (convert_id_fields str_of_id
                         (<["_id" := VObjectId 7]> (<["id" := VInt 5]> hello))))
           (VObjectId 7) eq_refl).
Defined.

End FurtherScenarios.
